(** * The VoltMind example plugin ([plugin.py]), embedded and verified

    The plugin defines two commands, [GreetCommand] and [CountCommand], and a
    [Plugin] object that registers them in a dictionary.  The commands read a
    keyword bag ([**kwargs]), write lines to a console and return a value.

    Modelling choices:
    - a Python value is a [PyVal]: [None], a [bool], an unbounded [int] ([Z]),
      a [float] or a [str];
    - a [float] is either finite (every finite double is a rational number,
      so it is carried as a [Q]), an infinity or a NaN; this is all that the
      exact conversion [int(x)] needs.  The decimal text of a float (with
      the sign of a zero) is not modelled: it is a parameter of the greet
      command, and no property below depends on what it is;
    - a [str] is a [string] whose characters are the code points 0..255; the
      two pictographs of the source's literals lie outside that range and
      are kept as the bytes of their UTF-8 encoding;
    - the console is the list of the texts it has written, oldest first;
      [Console.print] reads its text as markup before it writes anything, and
      raises [MarkupError], writing nothing, on a closing tag that closes
      nothing ([Markup] below);
    - conversions between integers and decimal text obey the interpreter's
      default cap of 4300 digits;
    - exceptions are explicit: a computation either returns or raises;
    - dictionaries are objects in a store, so that a copy and its original
      are different objects. *)

From Stdlib Require Import QArith Ascii String.
From stdpp Require Import gmap strings list fin_maps pretty.

Open Scope Z_scope.

(** ** Python values *)

Inductive float :=
  | FFinite (q : Q)
  | FInf (negative : bool)
  | FNaN.

Inductive PyVal :=
  | VNone
  | VBool (b : bool)
  | VInt (n : Z)
  | VFloat (x : float)
  | VStr (s : string).

Inductive exn := ValueError | TypeError | OverflowError | MarkupError.

Inductive outcome (A : Type) :=
  | Returned (a : A)
  | Raised (e : exn).
Arguments Returned {A} a.
Arguments Raised {A} e.

(** ** The builtin [int()] *)

Module Builtins.

(** Characters [int()] skips around a numeral: the ASCII white space
    (tab, LF, VT, FF, CR, space) and, above 127, NEL and the no-break space. *)
Definition is_space (c : ascii) : bool :=
  let n := N_of_ascii c in
  ((9 <=? n) && (n <=? 13) || (n =? 32) || (n =? 133) || (n =? 160))%N.

Definition digit_value (c : ascii) : option Z :=
  let n := N_of_ascii c in
  if ((48 <=? n) && (n <=? 57))%N then Some (Z.of_N n - 48) else None.

Fixpoint skip_space (s : string) : string :=
  match s with
  | String c s' => if is_space c then skip_space s' else s
  | EmptyString => s
  end.

(** The digits of a numeral, with single underscores allowed between two
    digits.  [prev] tells whether the previous character was an
    underscore, [seen] whether a digit has been read; the result is the
    value read and the text left. *)
Fixpoint scan_digits (s : string) (prev seen : bool) (acc : Z)
  : option (Z * string) :=
  match s with
  | String c s' =>
      match digit_value c with
      | Some d => scan_digits s' false true (10 * acc + d)
      | None =>
          if Ascii.eqb c "_" then
            if prev then None else scan_digits s' true seen acc
          else if prev || negb seen then None else Some (acc, s)
      end
  | EmptyString => if prev || negb seen then None else Some (acc, s)
  end.

(** The interpreter's default cap on the digits of a decimal conversion
    ([sys.int_info.default_max_str_digits]). *)
Definition max_str_digits : N := 4300.

(** The number of digits in the run of digits and underscores that [s]
    starts with. *)
Fixpoint digits_run (s : string) : N :=
  match s with
  | String c s' =>
      match digit_value c with
      | Some _ => N.succ (digits_run s')
      | None => if Ascii.eqb c "_" then digits_run s' else 0%N
      end
  | EmptyString => 0%N
  end.

(** [int(s)] for a string in base 10; [None] stands for [ValueError],
    which is also what a numeral of more than [max_str_digits] digits
    gets. *)
Definition int_of_str (s : string) : option Z :=
  let s := skip_space s in
  let '(negative, s) :=
    match s with
    | String "+" s' => (false, s')
    | String "-" s' => (true, s')
    | _ => (false, s)
    end in
  match s with
  | String "_" _ => None
  | _ =>
      match scan_digits s false false 0 with
      | Some (n, rest) =>
          if (max_str_digits <? digits_run s)%N then None
          else
            match skip_space rest with
            | EmptyString => Some (if negative then - n else n)
            | _ => None
            end
      | None => None
      end
  end.

(** [int(x)] for a finite float: truncation toward zero. *)
Definition trunc (q : Q) : Z := Z.quot (Qnum q) (Z.pos (Qden q)).

Definition int (v : PyVal) : outcome Z :=
  match v with
  | VNone => Raised TypeError
  | VBool b => Returned (if b then 1 else 0)
  | VInt n => Returned n
  | VFloat (FFinite q) => Returned (trunc q)
  | VFloat (FInf _) => Raised OverflowError
  | VFloat FNaN => Raised ValueError
  | VStr s =>
      match int_of_str s with
      | Some n => Returned n
      | None => Raised ValueError
      end
  end.

(** [range(a, b)] *)
Definition range (a b : Z) : list Z := seqZ a (b - a).

(** [format(v, "")], what an f-string field [{v}] expands to.  An integer
    of more than [max_str_digits] digits has no decimal text: the
    conversion raises [ValueError].  The shortest round-trip numeral of a
    float is left to [float_repr]. *)
Definition format (float_repr : float → string) (v : PyVal) : outcome string :=
  match v with
  | VNone => Returned "None"
  | VBool b => Returned (if b then "True" else "False")
  | VInt n =>
      if 10 ^ Z.of_N max_str_digits <=? Z.abs n then Raised ValueError
      else Returned (pretty n)
  | VFloat x => Returned (float_repr x)
  | VStr s => Returned s
  end.

(** The f-string [f"{pre}{v}{post}"] with one field. *)
Definition fstring (float_repr : float → string)
    (pre : string) (v : PyVal) (post : string) : outcome string :=
  match format float_repr v with
  | Returned text => Returned (pre +:+ text +:+ post)
  | Raised e => Raised e
  end.

(** [a == b] where [b] is a string literal: only an equal string is equal. *)
Definition eq_str (v : PyVal) (lit : string) : bool :=
  match v with
  | VStr s => String.eqb s lit
  | _ => false
  end.

End Builtins.

(** ** Console markup

    [Console.print] reads its text as markup.  A tag is a "[", a first
    character among the lower-case letters, "#", "/" and "@", then
    characters other than "[" up to the next "]"; an odd number of
    backslashes before the "[" makes it plain text.  A tag whose name
    starts with "/" closes the nearest open tag of that name, or the last
    open tag when the name is empty, and it is an error when there is none;
    any other tag is opened.  Tags left open at the end are closed there.

    Names are compared trimmed and in lower case.  Two refinements of the
    console, which only texts with tags of their own can meet, are left
    out: it identifies the different spellings of one style, and it
    evaluates the parameters of an "@" tag when that tag is closed. *)

Module Markup.

Definition tag_start (c : ascii) : bool :=
  let n := N_of_ascii c in
  ((97 <=? n) && (n <=? 122) || (n =? 35) || (n =? 47) || (n =? 64))%N.

(** The characters [str.strip()] removes. *)
Definition is_space (c : ascii) : bool :=
  let n := N_of_ascii c in
  ((9 <=? n) && (n <=? 13) || (28 <=? n) && (n <=? 32)
   || (n =? 133) || (n =? 160))%N.

Fixpoint lstrip (s : string) : string :=
  match s with
  | String c s' => if is_space c then lstrip s' else s
  | EmptyString => s
  end.

Definition reversed (s : string) : string :=
  string_of_list_ascii (List.rev (list_ascii_of_string s)).

Definition strip (s : string) : string :=
  reversed (lstrip (reversed (lstrip s))).

Definition lower_char (c : ascii) : ascii :=
  let n := N_of_ascii c in
  if ((65 <=? n) && (n <=? 90)
      || (192 <=? n) && (n <=? 222) && negb (n =? 215))%N
  then ascii_of_N (n + 32) else c.

Fixpoint lower (s : string) : string :=
  match s with
  | String c s' => String (lower_char c) (lower s')
  | EmptyString => s
  end.

Definition normalize (name : string) : string := lower (strip name).

(** The name of a tag: its text before the first "=". *)
Fixpoint name_of (tag : string) : string :=
  match tag with
  | String c tag' => if Ascii.eqb c "=" then "" else String c (name_of tag')
  | EmptyString => ""
  end.

(** Take the nearest open tag called [name] off the stack of open tags
    (nearest first); [None] when there is none. *)
Fixpoint pop_style (name : string) (stack : list string)
  : option (list string) :=
  match stack with
  | [] => None
  | open :: stack' =>
      if String.eqb open name then Some stack'
      else match pop_style name stack' with
           | Some stack'' => Some (open :: stack'')
           | None => None
           end
  end.

(** What a tag does to the stack of open tags; [None] is [MarkupError]. *)
Definition apply_tag (tag : string) (stack : list string)
  : option (list string) :=
  match name_of tag with
  | String "/" closing =>
      match strip closing with
      | EmptyString =>
          match stack with
          | [] => None
          | _ :: stack' => Some stack'
          end
      | style_name => pop_style (normalize style_name) stack
      end
  | name => Some (normalize name :: stack)
  end.

(** Where the reader is: outside a tag after a run of backslashes, just
    after a "[" that so many backslashes precede, or inside a tag, with the
    tag's text so far and the backslashes it ends with. *)
Inductive state :=
  | Outside (backslashes : nat)
  | Opened (escapes : nat)
  | InTag (escapes : nat) (tag : string) (trailing : nat).

Definition outside (c : ascii) (backslashes : nat) : state :=
  if Ascii.eqb c "\" then Outside (S backslashes)
  else if Ascii.eqb c "[" then Opened backslashes
  else Outside 0.

Definition step (c : ascii) (st : state * list string)
  : option (state * list string) :=
  let '(position, stack) := st in
  match position with
  | Outside backslashes => Some (outside c backslashes, stack)
  | Opened escapes =>
      if tag_start c then Some (InTag escapes (String c "") 0, stack)
      else Some (outside c 0, stack)
  | InTag escapes tag trailing =>
      if Ascii.eqb c "]" then
        if Nat.even escapes then
          match apply_tag tag stack with
          | Some stack' => Some (Outside 0, stack')
          | None => None
          end
        else Some (Outside 0, stack)
      else if Ascii.eqb c "[" then Some (Opened trailing, stack)
      else Some (InTag escapes (tag +:+ String c "")
                   (if Ascii.eqb c "\" then S trailing else 0), stack)
  end.

Fixpoint scan (text : string) (st : state * list string)
  : option (state * list string) :=
  match text with
  | String c text' =>
      match step c st with
      | Some st' => scan text' st'
      | None => None
      end
  | EmptyString => Some st
  end.

(** The text is well-formed markup. *)
Definition renders (text : string) : bool :=
  match scan text (Outside 0, []) with
  | Some _ => true
  | None => false
  end.

End Markup.

(** ** Console output and exceptions

    A computation takes the console's contents and gives back an outcome
    and the new contents. *)

Definition Console := list string.

Definition M (A : Type) : Type := Console → outcome A * Console.

Definition ret {A} (a : A) : M A := λ out, (Returned a, out).

Definition bind {A B} (m : M A) (k : A → M B) : M B := λ out,
  match m out with
  | (Returned a, out') => k a out'
  | (Raised e, out') => (Raised e, out')
  end.

Definition lift {A} (r : outcome A) : M A := λ out, (r, out).

(** [self.console.print(text)] *)
Definition console_print (text : string) : M unit := λ out,
  if Markup.renders text then (Returned (), out ++ [text])
  else (Raised MarkupError, out).

(** [try: body  except ValueError: handler] *)
Definition try_except_ValueError {A} (body handler : M A) : M A := λ out,
  match body out with
  | (Raised ValueError, out') => handler out'
  | r => r
  end.

(** [for x in l: body(x)] *)
Fixpoint for_each {A} (l : list A) (body : A → M unit) : M unit :=
  match l with
  | [] => ret ()
  | x :: l' => bind (body x) (λ _, for_each l' body)
  end.

Declare Scope py_scope.
Delimit Scope py_scope with py.
Notation "x <- m ;; k" := (bind m (λ x, k))
  (at level 100, m at next level, right associativity) : py_scope.
Notation "m ;; k" := (bind m (λ _, k))
  (at level 100, right associativity) : py_scope.

Abbreviation kwargs := (gmap string PyVal).

(** [kwargs.get(key, dflt)] *)
Definition kwargs_get (kw : kwargs) (key : string) (dflt : PyVal) : PyVal :=
  default dflt (kw !! key).

(** ** The commands

    A command object carries its class and the two attributes set by
    [BaseCommand.__init__]. *)

Inductive CommandClass := GreetCommandClass | CountCommandClass.

Record ICommand := {
  class_of : CommandClass;
  _name : string;
  _help : string;
}.

Module BaseCommand.
Definition __init__ (cls : CommandClass) (name help_text : string) : ICommand :=
  {| class_of := cls; _name := name; _help := help_text |}.
Definition get_name (self : ICommand) : string := _name self.
Definition get_help (self : ICommand) : string := _help self.
End BaseCommand.

Module GreetCommand.

Definition __init__ : ICommand :=
  BaseCommand.__init__ GreetCommandClass
    "greet" "Greet with a custom message from the example plugin".

Section Execute.
Variable float_repr : float → string.

Definition message (kw : kwargs) : outcome string :=
  let name := kwargs_get kw "name" (VStr "Friend") in
  let style := kwargs_get kw "style" (VStr "friendly") in
  if Builtins.eq_str style "formal" then
    Builtins.fstring float_repr "Good day, " name ". I hope you are well."
  else if Builtins.eq_str style "casual" then
    Builtins.fstring float_repr "Hey " name "! What's up?"
  else
    Builtins.fstring float_repr "Hello there, " name "! Nice to see you!".

Definition execute (kw : kwargs) : M PyVal :=
  (message <- lift (message kw);;
   console_print ("🤖 [bold blue]" +:+ message +:+ "[/bold blue]");;
   console_print
     "[dim]This message is brought to you by the Example Plugin![/dim]";;
   ret (VStr message))%py.
End Execute.

End GreetCommand.

Module CountCommand.

Definition __init__ : ICommand :=
  BaseCommand.__init__ CountCommandClass
    "count" "Count from 1 to a specified number".

(** The statements of the [try] block after the coercion. *)
Definition count_to (max_num : Z) : M PyVal :=
  (if max_num <? 1 then
     console_print "[red]Please provide a positive number[/red]";;
     ret VNone
   else
     max_num <- (if 100 <? max_num then
                   console_print
                     "[yellow]That's a big number! Limiting to 100[/yellow]";;
                   ret 100
                 else ret max_num);;
     console_print ("🔢 Counting to " +:+ pretty max_num +:+ ":");;
     for_each (Builtins.range 1 (max_num + 1))
       (λ i, console_print ("  " +:+ pretty i));;
     console_print ("✅ Finished counting to " +:+ pretty max_num +:+ "!");;
     ret (VInt max_num))%py.

Definition execute (kw : kwargs) : M PyVal :=
  (let max_num := kwargs_get kw "max" (VInt 5) in
   try_except_ValueError
     (max_num <- lift (Builtins.int max_num);;
      count_to max_num)
     (console_print "[red]Please provide a valid number[/red]";;
      ret VNone))%py.

End CountCommand.

(** ** The plugin

    Dictionaries live in a store, addressed by location; the plugin's
    [_commands] attribute holds the location of its registry. *)

Record PluginInfo := {
  name : string;
  version : string;
  description : string;
  author : string;
  commands : list string;
  entry_point : string;
}.

Definition loc := positive.
Abbreviation dict := (gmap string ICommand).
Abbreviation store := (gmap loc (gmap string ICommand)).

(** A new dictionary object with the contents [d]. *)
Definition alloc (d : dict) (h : store) : loc * store :=
  let l := fresh (dom h) in (l, <[l := d]> h).

(** The contents of the dictionary at [l]. *)
Definition contents (h : store) (l : loc) : dict := default ∅ (h !! l).

Module Plugin.

Record t := { _commands : loc }.

Definition __init__ (h : store) : t * store :=
  let '(l, h) := alloc ∅ h in ({| _commands := l |}, h).

Definition get_info (self : t) (h : store) : PluginInfo * (t * store) :=
  ({| name := "example-plugin";
      version := "1.0.0";
      description := "An example plugin demonstrating VoltMind's plugin system";
      author := "VoltMind Team";
      commands := ["greet"; "count"];
      entry_point := "plugin.Plugin" |}, (self, h)).

Definition initialize (self : t) (h : store) : unit * (t * store) :=
  let '(l, h) :=
    alloc {[ "greet" := GreetCommand.__init__;
             "count" := CountCommand.__init__ ]} h in
  ((), ({| _commands := l |}, h)).

(** [self._commands.copy()]: a new dictionary with the same entries. *)
Definition get_commands (self : t) (h : store) : loc * (t * store) :=
  let '(l, h) := alloc (contents h (_commands self)) h in
  (l, (self, h)).

End Plugin.

(** What a caller can do to a dictionary it holds. *)
Inductive mutation :=
  | SetItem (key : string) (value : ICommand)
  | DelItem (key : string)
  | Clear.

Definition mutate (l : loc) (m : mutation) (h : store) : store :=
  match m with
  | SetItem k v => alter (insert k v) l h
  | DelItem k => alter (delete k) l h
  | Clear => alter (λ _, ∅) l h
  end.

Definition mutate_all (l : loc) (ms : list mutation) (h : store) : store :=
  foldl (λ h m, mutate l m h) h ms.

(** The calls of the plugin's interface, and a run of them from a state. *)
Inductive call := Initialize | GetInfo | GetCommands.

Definition step (c : call) (st : Plugin.t * store) : Plugin.t * store :=
  let '(self, h) := st in
  match c with
  | Initialize => snd (Plugin.initialize self h)
  | GetInfo => snd (Plugin.get_info self h)
  | GetCommands => snd (Plugin.get_commands self h)
  end.

Definition run (cs : list call) (st : Plugin.t * store) : Plugin.t * store :=
  foldl (λ st c, step c st) st cs.

(** The plugin's own registry, and the entries of the dictionary that a
    call of [get_commands] hands out. *)
Definition registry (st : Plugin.t * store) : dict :=
  contents (snd st) (Plugin._commands (fst st)).

Definition handed_out (st : Plugin.t * store) : dict :=
  let r := Plugin.get_commands (fst st) (snd st) in
  contents (snd (snd r)) (fst r).

(** The plugin's [_commands] attribute refers to a dictionary of the store. *)
Definition well_formed (st : Plugin.t * store) : Prop :=
  is_Some (snd st !! Plugin._commands (fst st)).

(** The two commands of the plugin, under their names. *)
Definition both_commands : dict :=
  {[ "greet" := GreetCommand.__init__; "count" := CountCommand.__init__ ]}.

(** The names registered in the plugin's command mapping. *)
Definition registered (st : Plugin.t * store) : gset string :=
  dom (registry st).

(** The names declared in the descriptor [get_info] returns. *)
Definition declared (st : Plugin.t * store) : gset string :=
  list_to_set (commands (fst (Plugin.get_info (fst st) (snd st)))).

(** ** What the count command writes, in the specification's terms *)

Definition header (n : Z) : string := "🔢 Counting to " +:+ pretty n +:+ ":".
Definition line (i : Z) : string := "  " +:+ pretty i.
Definition footer (n : Z) : string :=
  "✅ Finished counting to " +:+ pretty n +:+ "!".
Definition warning : string :=
  "[yellow]That's a big number! Limiting to 100[/yellow]".
Definition not_positive : string := "[red]Please provide a positive number[/red]".
Definition not_a_number : string := "[red]Please provide a valid number[/red]".

(** The header, one line for each of 1, ..., [n], and the footer. *)
Definition counting (n : Z) : list string :=
  header n :: (line <$> seqZ 1 n) ++ [footer n].

(** The text has no "[", so that no part of it can be read as a tag. *)
Fixpoint no_bracket (s : string) : bool :=
  match s with
  | String c s' => negb (Ascii.eqb c "[") && no_bracket s'
  | EmptyString => true
  end.



(** * Properties *)

(** ** The builtins on sample arguments *)

Example int_of_str_samples :
  Builtins.int_of_str <$>
    ["abc"; "7"; " 42 "; "+5"; "-3"; "--3"; "+ 5"; "1_000"; "_1"; "1_"; "1__0";
     ""; "  "; "7.9"; "007"; "-0"; "+"; "150"; "1 2"; "0x10"; "inf"]
  = [None; Some 7; Some 42; Some 5; Some (-3); None; None; Some 1000; None;
     None; None; None; None; None; Some 7; Some 0; None; Some 150; None; None;
     None].
Proof. reflexivity. Qed.

(** NEL and the no-break space count as white space, the separators
    0x1C..0x1F do not. *)
Example int_of_str_spaces :
  Builtins.int_of_str (String (ascii_of_N 133) (String (ascii_of_N 160) "5"))
  = Some 5 ∧
  Builtins.int_of_str (String (ascii_of_N 28) "5") = None.
Proof. split; reflexivity. Qed.

Example int_samples :
  Builtins.int <$>
    [VNone; VBool true; VBool false; VInt 150; VStr "12"; VStr "twelve";
     VFloat (FFinite (79 # 10)); VFloat (FFinite (-79 # 10));
     VFloat (FFinite (-1 # 2)); VFloat (FInf false); VFloat (FInf true);
     VFloat FNaN]
  = [Raised TypeError; Returned 1; Returned 0; Returned 150; Returned 12;
     Raised ValueError; Returned 7; Returned (-7); Returned 0;
     Raised OverflowError; Raised OverflowError; Raised ValueError].
Proof. reflexivity. Qed.

(** Markup the console accepts and markup it refuses. *)
Example markup_samples :
  Markup.renders <$>
    ["plain text"; "[red]x[/red]"; "[bold blue]x[/bold blue]"; "[bold]x[/]";
     "[bold]left open"; "[a][b]x[/a][/b]"; "[link=http://x]y[/link]";
     "[bold]x[/BOLD ]"; "a [1] b"; "[Ada]"; "[]"; "\[/x]";
     "[/x]"; "x[/]"; "[bold]x[/italic]"; "[bold]x[/][/]"; "\\[/x]";
     "[ab[/cd]"]
  = [true; true; true; true; true; true; true; true; true; true; true; true;
     false; false; false; false; false; false].
Proof. reflexivity. Qed.

(** ** The console monad *)

Section Monad.
Context {A B : Type}.

Lemma bind_returned (m : M A) (k : A → M B) out a out' :
  m out = (Returned a, out') → bind m k out = k a out'.
Proof. unfold bind. by intros ->. Qed.

Lemma bind_raised (m : M A) (k : A → M B) out e out' :
  m out = (Raised e, out') → bind m k out = (Raised e, out').
Proof. unfold bind. by intros ->. Qed.

Lemma try_returned (body handler : M A) out a out' :
  body out = (Returned a, out') →
  try_except_ValueError body handler out = (Returned a, out').
Proof. unfold try_except_ValueError. by intros ->. Qed.

Lemma try_caught (body handler : M A) out out' :
  body out = (Raised ValueError, out') →
  try_except_ValueError body handler out = handler out'.
Proof. unfold try_except_ValueError. by intros ->. Qed.

Lemma try_propagated (body handler : M A) out e out' :
  e ≠ ValueError → body out = (Raised e, out') →
  try_except_ValueError body handler out = (Raised e, out').
Proof. unfold try_except_ValueError. intros ? ->. by destruct e. Qed.
End Monad.

(** ** Markup *)

Lemma no_bracket_app (s t : string) :
  no_bracket (s +:+ t) = no_bracket s && no_bracket t.
Proof.
  induction s as [|c s IH]; simpl; [done|]. rewrite IH. by rewrite andb_assoc.
Qed.

Lemma no_bracket_pretty_N_go (x : N) (s : string) :
  no_bracket s = true → no_bracket (pretty_N_go x s) = true.
Proof.
  revert s. induction (N.lt_wf_0 x) as [x _ IH]. intros s Hs.
  destruct (decide (x = 0)%N) as [->|Hx]; [by rewrite pretty_N_go_0|].
  rewrite pretty_N_go_step by lia.
  apply IH; [apply N.div_lt; lia|]. simpl. rewrite Hs.
  unfold pretty_N_char. by repeat case_match.
Qed.

Lemma no_bracket_pretty (n : Z) : no_bracket (pretty n) = true.
Proof.
  destruct n as [|x|x]; [done | |].
  - by apply (no_bracket_pretty_N_go (N.pos x) "").
  - change (pretty (Z.neg x)) with (String "-" (pretty_N_go (N.pos x) "")).
    simpl. by apply (no_bracket_pretty_N_go (N.pos x) "").
Qed.


(** A text without "[" leaves the reader outside a tag and the open tags
    as they are. *)
Lemma scan_plain (s : string) (k : nat) (stack : list string) :
  no_bracket s = true →
  ∃ k', Markup.scan s (Markup.Outside k, stack)
        = Some (Markup.Outside k', stack).
Proof.
  revert k. induction s as [|c s IH]; intros k; simpl; [by eexists|].
  intros [Hc Hs]%andb_true_iff. unfold Markup.outside.
  destruct (Ascii.eqb c "\"); [by apply IH|].
  destruct (Ascii.eqb c "["); [done | by apply IH].
Qed.

Lemma renders_scan (s : string) (st : Markup.state * list string) :
  Markup.scan s (Markup.Outside 0, []) = Some st → Markup.renders s = true.
Proof. unfold Markup.renders. by intros ->. Qed.

Lemma renders_plain (s : string) : no_bracket s = true → Markup.renders s = true.
Proof.
  intros Hs. destruct (scan_plain s 0 [] Hs) as [k' Hk].
  by apply renders_scan in Hk.
Qed.


(** ** Printing *)

Lemma print_renders (text : string) (out : Console) :
  Markup.renders text = true →
  console_print text out = (Returned (), out ++ [text]).
Proof. unfold console_print. by intros ->. Qed.

Lemma print_fails (text : string) (out : Console) :
  Markup.renders text = false →
  console_print text out = (Raised MarkupError, out).
Proof. unfold console_print. by intros ->. Qed.

Lemma for_each_print {A} (f : A → string) (l : list A) (out : Console) :
  (∀ x, Markup.renders (f x) = true) →
  for_each l (λ i, console_print (f i)) out = (Returned (), out ++ (f <$> l)).
Proof.
  intros Hf. revert out. induction l as [|x l IH]; intros out; simpl.
  - by rewrite app_nil_r.
  - unfold bind. rewrite print_renders by done. rewrite IH.
    by rewrite <- app_assoc.
Qed.

Lemma bind_ret {A B} (a : A) (k : A → M B) (out : Console) :
  bind (ret a) k out = k a out.
Proof. reflexivity. Qed.

Lemma bind_print {B} (text : string) (k : unit → M B) (out : Console) :
  Markup.renders text = true →
  bind (console_print text) k out = k () (out ++ [text]).
Proof. intros Ht. unfold bind. by rewrite print_renders. Qed.

Lemma bind_assoc {A B C} (m : M A) (k1 : A → M B) (k2 : B → M C) out :
  bind (bind m k1) k2 out = bind m (λ x, bind (k1 x) k2) out.
Proof. unfold bind. by destruct (m out) as [[a|e] out']. Qed.

Lemma bind_for_each_print {A B} (f : A → string) (l : list A)
    (k : unit → M B) (out : Console) :
  (∀ x, Markup.renders (f x) = true) →
  bind (for_each l (λ i, console_print (f i))) k out = k () (out ++ (f <$> l)).
Proof. intros Hf. unfold bind at 1. by rewrite for_each_print. Qed.

(** The texts of the count command are well-formed markup. *)
Lemma renders_header (n : Z) : Markup.renders (header n) = true.
Proof.
  apply renders_plain. unfold header.
  by rewrite !no_bracket_app, no_bracket_pretty.
Qed.

Lemma renders_line (i : Z) : Markup.renders (line i) = true.
Proof.
  apply renders_plain. unfold line.
  by rewrite !no_bracket_app, no_bracket_pretty.
Qed.

Lemma renders_footer (n : Z) : Markup.renders (footer n) = true.
Proof.
  apply renders_plain. unfold footer.
  by rewrite !no_bracket_app, no_bracket_pretty.
Qed.

(** ** The count command *)

Lemma range_from_one (n : Z) : Builtins.range 1 (n + 1) = seqZ 1 n.
Proof. unfold Builtins.range. f_equal. lia. Qed.

Lemma count_to_below_one (n : Z) (out : Console) :
  n < 1 → CountCommand.count_to n out = (Returned VNone, out ++ [not_positive]).
Proof.
  intros Hn. unfold CountCommand.count_to.
  rewrite (proj2 (Z.ltb_lt n 1) Hn).
  by rewrite bind_print.
Qed.

Lemma count_to_bound (n : Z) (out : Console) :
  1 ≤ n → n ≤ 100 →
  CountCommand.count_to n out = (Returned (VInt n), out ++ counting n).
Proof.
  intros H1 H2. unfold CountCommand.count_to.
  rewrite (proj2 (Z.ltb_ge n 1)) by lia.
  rewrite (proj2 (Z.ltb_ge 100 n)) by lia.
  rewrite bind_ret.
  rewrite (bind_print (header n)) by apply renders_header.
  rewrite range_from_one.
  rewrite (bind_for_each_print line) by apply renders_line.
  rewrite (bind_print (footer n)) by apply renders_footer.
  unfold ret, counting. by rewrite <- !app_assoc.
Qed.

Lemma count_to_clamped (n : Z) (out : Console) :
  100 < n →
  CountCommand.count_to n out
  = (Returned (VInt 100), out ++ warning :: counting 100).
Proof.
  intros Hn. unfold CountCommand.count_to.
  rewrite (proj2 (Z.ltb_ge n 1)) by lia.
  rewrite (proj2 (Z.ltb_lt 100 n)) by lia.
  rewrite bind_assoc, (bind_print warning), bind_ret by done.
  rewrite (bind_print (header 100)) by apply renders_header.
  rewrite range_from_one.
  rewrite (bind_for_each_print line) by apply renders_line.
  rewrite (bind_print (footer 100)) by apply renders_footer.
  unfold ret, counting. by rewrite <- !app_assoc.
Qed.

Lemma count_to_returns (n : Z) (out : Console) :
  ∃ v out', CountCommand.count_to n out = (Returned v, out').
Proof.
  destruct (Z_lt_le_dec n 1); [|destruct (Z_le_gt_dec n 100)].
  - eexists _, _. by apply count_to_below_one.
  - eexists _, _. by apply count_to_bound.
  - eexists _, _. apply count_to_clamped. lia.
Qed.

(** The command as a function of what [int()] makes of its argument. *)
Lemma execute_coerced (kw : kwargs) (out : Console) (n : Z) :
  Builtins.int (kwargs_get kw "max" (VInt 5)) = Returned n →
  CountCommand.execute kw out = CountCommand.count_to n out.
Proof.
  intros Hn. destruct (count_to_returns n out) as (v & out' & Hc).
  unfold CountCommand.execute. rewrite Hc.
  apply try_returned. unfold bind, lift. by rewrite Hn.
Qed.

Lemma execute_ValueError (kw : kwargs) (out : Console) :
  Builtins.int (kwargs_get kw "max" (VInt 5)) = Raised ValueError →
  CountCommand.execute kw out = (Returned VNone, out ++ [not_a_number]).
Proof.
  intros Hn. unfold CountCommand.execute.
  erewrite try_caught; [by rewrite bind_print|].
  unfold bind, lift. by rewrite Hn.
Qed.

Lemma execute_propagates (kw : kwargs) (out : Console) (e : exn) :
  e ≠ ValueError →
  Builtins.int (kwargs_get kw "max" (VInt 5)) = Raised e →
  CountCommand.execute kw out = (Raised e, out).
Proof.
  intros He Hn. unfold CountCommand.execute.
  apply try_propagated; [done|]. unfold bind, lift. by rewrite Hn.
Qed.

(** The command raises exactly what [int()] raises other than [ValueError]. *)
Lemma execute_raises (kw : kwargs) (out : Console) (e : exn) :
  fst (CountCommand.execute kw out) = Raised e ↔
  Builtins.int (kwargs_get kw "max" (VInt 5)) = Raised e ∧ e ≠ ValueError.
Proof.
  destruct (Builtins.int (kwargs_get kw "max" (VInt 5))) as [n|e'] eqn:Hint.
  - rewrite (execute_coerced kw out n Hint).
    destruct (count_to_returns n out) as (v & out' & ->).
    split; [done | by intros [? _]].
  - assert (e' = ValueError ∨ e' ≠ ValueError) as [->|Hne]
      by (destruct e'; (by left) || (by right)).
    + rewrite (execute_ValueError kw out Hint). simpl.
      split; [done | intros [[= <-] ?]; done].
    + rewrite (execute_propagates kw out e' Hne Hint). simpl.
      split; [intros [= <-]; done | by intros [[= ->] _]].
Qed.

Lemma kwargs_get_lookup (kw : kwargs) (key : string) (dflt v : PyVal) :
  kw !! key = Some v → kwargs_get kw key dflt = v.
Proof. unfold kwargs_get. by intros ->. Qed.

(** C1: for an integer [max] between 1 and 100 the count command returns
    [max] and writes, in this order, the header, one line for each of
    1, ..., [max], and the footer. *)
Theorem count_returns_bound (kw : kwargs) (n : Z) (out : Console) :
  kw !! "max" = Some (VInt n) → 1 ≤ n ≤ 100 →
  CountCommand.execute kw out
  = (Returned (VInt n), out ++ header n :: (line <$> seqZ 1 n) ++ [footer n]).
Proof.
  intros Hkw [H1 H2].
  rewrite (execute_coerced kw out n).
  - by apply count_to_bound.
  - by rewrite (kwargs_get_lookup _ _ _ _ Hkw).
Qed.

(** [count(max=5)] returns 5 and writes the header, the lines 1 to 5 and
    the footer. *)
Lemma count_to_five :
  CountCommand.execute {[ "max" := VInt 5 ]} []
  = (Returned (VInt 5),
     ["🔢 Counting to 5:"; "  1"; "  2"; "  3"; "  4"; "  5";
      "✅ Finished counting to 5!"]).
Proof.
  exact (count_returns_bound {[ "max" := VInt 5 ]} 5 [] eq_refl
           (conj (Zle_bool_imp_le 1 5 eq_refl) (Zle_bool_imp_le 5 100 eq_refl))).
Defined.

(** C2, as the code has it: when [int()] raises [ValueError] (a string that
    is not a decimal numeral, a NaN), and when the coerced value is below
    one, the count command returns [None] and writes one error message;
    nothing is raised. *)
Theorem count_fails_softly (kw : kwargs) (out : Console) :
  let v := kwargs_get kw "max" (VInt 5) in
  (Builtins.int v = Raised ValueError →
   CountCommand.execute kw out = (Returned VNone, out ++ [not_a_number])) ∧
  (∀ n, Builtins.int v = Returned n → n < 1 →
   CountCommand.execute kw out = (Returned VNone, out ++ [not_positive])).
Proof.
  split.
  - apply execute_ValueError.
  - intros n Hn Hlt. rewrite (execute_coerced kw out n Hn).
    by apply count_to_below_one.
Qed.

(** [count(max="abc")], [count(max=0)] and [count(max=-3)]. *)
Lemma count_rejects_abc_0_minus3 :
  CountCommand.execute {[ "max" := VStr "abc" ]} []
  = (Returned VNone, ["[red]Please provide a valid number[/red]"]) ∧
  CountCommand.execute {[ "max" := VInt 0 ]} []
  = (Returned VNone, ["[red]Please provide a positive number[/red]"]) ∧
  CountCommand.execute {[ "max" := VInt (-3) ]} []
  = (Returned VNone, ["[red]Please provide a positive number[/red]"]).
Proof.
  split; [|split].
  - exact (proj1 (count_fails_softly {[ "max" := VStr "abc" ]} []) eq_refl).
  - exact (proj2 (count_fails_softly {[ "max" := VInt 0 ]} []) 0 eq_refl eq_refl).
  - exact (proj2 (count_fails_softly {[ "max" := VInt (-3) ]} [])
             (-3) eq_refl eq_refl).
Defined.

(** The coercion of [None] fails with [TypeError], which the handler does
    not catch: [count(max=None)] raises, and writes nothing. *)
Lemma count_None_raises :
  Builtins.int VNone = Raised TypeError ∧
  CountCommand.execute {[ "max" := VNone ]} [] = (Raised TypeError, []).
Proof. split; reflexivity. Qed.

(** C3: when the argument coerces to an integer above 100 the count command
    writes the warning, counts to 100 and returns 100. *)
Theorem count_clamps_to_100 (kw : kwargs) (n : Z) (out : Console) :
  Builtins.int (kwargs_get kw "max" (VInt 5)) = Returned n → 100 < n →
  CountCommand.execute kw out
  = (Returned (VInt 100),
     out ++ warning :: header 100 :: (line <$> seqZ 1 100) ++ [footer 100]).
Proof.
  intros Hn Hlt. rewrite (execute_coerced kw out n Hn).
  by apply count_to_clamped.
Qed.

(** [count(max=150)] *)
Lemma count_150_clamps :
  fst (CountCommand.execute {[ "max" := VInt 150 ]} []) = Returned (VInt 100) ∧
  snd (CountCommand.execute {[ "max" := VInt 150 ]} [])
  = warning :: header 100 :: (line <$> seqZ 1 100) ++ [footer 100].
Proof.
  assert (Builtins.int (kwargs_get {[ "max" := VInt 150 ]} "max" (VInt 5))
          = Returned 150) as Hint by reflexivity.
  rewrite (count_clamps_to_100 {[ "max" := VInt 150 ]} 150 [] Hint eq_refl).
  split; reflexivity.
Defined.

(** ** Floats *)

(** For a float that is not negative, [int()] yields its integer part. *)
Lemma trunc_integer_part (q : Q) :
  (0 <= q)%Q →
  (inject_Z (Builtins.trunc q) <= q)%Q ∧ (q < inject_Z (Builtins.trunc q + 1))%Q.
Proof.
  destruct q as [a d]. unfold Qle, Qlt, Builtins.trunc, inject_Z. simpl.
  intros Ha. rewrite Z.quot_div_nonneg by lia.
  pose proof (Z.mul_div_le a (Z.pos d) ltac:(lia)).
  pose proof (Z.mul_succ_div_gt a (Z.pos d) ltac:(lia)).
  lia.
Qed.

Lemma trunc_at_least_one (q : Q) : (1 <= q)%Q → 1 ≤ Builtins.trunc q.
Proof.
  destruct q as [a d]. unfold Qle, Builtins.trunc. simpl. intros Ha.
  rewrite Z.quot_div_nonneg by lia.
  apply Z.div_le_lower_bound; lia.
Qed.

(** C10: a float argument of at least 1 is not rejected but truncated: the
    bound is its integer part, clamped at 100, and this is what the command
    counts to and returns. *)
Theorem count_truncates_float (kw : kwargs) (q : Q) (out : Console) :
  kw !! "max" = Some (VFloat (FFinite q)) → (1 <= q)%Q →
  let n := Builtins.trunc q in
  let bound := Z.min n 100 in
  (inject_Z n <= q)%Q ∧ (q < inject_Z (n + 1))%Q ∧
  CountCommand.execute kw out
  = (Returned (VInt bound),
     out ++ (if 100 <? n then [warning] else []) ++ counting bound).
Proof.
  intros Hkw Hq n bound.
  assert (0 <= q)%Q as Hq0.
  { apply Qle_trans with (2 := Hq). by unfold Qle. }
  destruct (trunc_integer_part q Hq0) as [Hlo Hhi].
  pose proof (trunc_at_least_one q Hq) as Hn.
  split; [done|]. split; [done|].
  rewrite (execute_coerced kw out n)
    by (by rewrite (kwargs_get_lookup _ _ _ _ Hkw)).
  subst bound. fold n in Hn. destruct (100 <? n) eqn:Hc.
  - apply Z.ltb_lt in Hc. rewrite Z.min_r by lia.
    by rewrite count_to_clamped.
  - apply Z.ltb_ge in Hc. rewrite Z.min_l by lia.
    by rewrite count_to_bound.
Qed.

(** [count(max=7.9)]: the double nearest to 7.9 is 4447304632028365 / 2^49. *)
Lemma count_7_9_counts_to_7 :
  CountCommand.execute
    {[ "max" := VFloat (FFinite (4447304632028365 # 562949953421312)) ]} []
  = (Returned (VInt 7),
     ["🔢 Counting to 7:"; "  1"; "  2"; "  3"; "  4"; "  5"; "  6"; "  7";
      "✅ Finished counting to 7!"]).
Proof.
  assert (1 <= 4447304632028365 # 562949953421312)%Q as Hq by (by unfold Qle).
  exact (proj2 (proj2 (count_truncates_float
    {[ "max" := VFloat (FFinite (4447304632028365 # 562949953421312)) ]}
    _ [] eq_refl Hq))).
Defined.

(** ** The greet command *)




(** The greeting is put together before anything is printed: when that
    fails, the failure is the command's, and nothing is written. *)
Lemma greet_message_raised (float_repr : float → string) (kw : kwargs)
    (out : Console) (e : exn) :
  GreetCommand.message float_repr kw = Raised e →
  GreetCommand.execute float_repr kw out = (Raised e, out).
Proof. intros Hm. unfold GreetCommand.execute, bind, lift. by rewrite Hm. Qed.

Lemma greet_printed (float_repr : float → string) (kw : kwargs)
    (out : Console) (message : string) :
  GreetCommand.message float_repr kw = Returned message →
  Markup.renders ("🤖 [bold blue]" +:+ message +:+ "[/bold blue]") = true →
  GreetCommand.execute float_repr kw out
  = (Returned (VStr message),
     out ++ ["🤖 [bold blue]" +:+ message +:+ "[/bold blue]";
             "[dim]This message is brought to you by the Example Plugin![/dim]"]).
Proof.
  intros Hm Hr. unfold GreetCommand.execute.
  unfold bind at 1, lift. rewrite Hm.
  rewrite !bind_print by done. unfold ret. by rewrite <- app_assoc.
Qed.

Lemma greet_not_printed (float_repr : float → string) (kw : kwargs)
    (out : Console) (message : string) :
  GreetCommand.message float_repr kw = Returned message →
  Markup.renders ("🤖 [bold blue]" +:+ message +:+ "[/bold blue]") = false →
  GreetCommand.execute float_repr kw out = (Raised MarkupError, out).
Proof.
  intros Hm Hr. unfold GreetCommand.execute.
  unfold bind at 1, lift. rewrite Hm.
  unfold bind. by rewrite print_fails.
Qed.



Lemma small_below_cap (n : Z) : Z.abs n < 4300 → Z.abs n < 10 ^ 4300.
Proof.
  intros Hn. apply Z.lt_trans with (1 := Hn).
  by apply Z.pow_gt_lin_r.
Qed.





(** ** No exception reaches the caller *)






(** ** The store *)

Lemma alloc_unused (d : dict) (h : store) : h !! fst (alloc d h) = None.
Proof. apply not_elem_of_dom, is_fresh. Qed.

Lemma contents_alloc (d : dict) (h : store) :
  contents (snd (alloc d h)) (fst (alloc d h)) = d.
Proof. unfold contents, alloc. simpl. by rewrite lookup_insert_eq. Qed.

Lemma alloc_keeps (d : dict) (h : store) (l : loc) :
  is_Some (h !! l) → snd (alloc d h) !! l = h !! l.
Proof.
  intros [d' Hl]. unfold alloc. simpl. apply lookup_insert_ne.
  intros Heq. pose proof (alloc_unused d h) as Hf. simpl in Hf.
  rewrite Heq in Hf. congruence.
Qed.

Lemma contents_alloc_other (d : dict) (h : store) (l : loc) :
  contents (snd (alloc d h)) l
  = if decide (l = fst (alloc d h)) then d else contents h l.
Proof.
  unfold contents, alloc. simpl. case_decide as Heq.
  - subst l. by rewrite lookup_insert_eq.
  - by rewrite lookup_insert_ne.
Qed.

Lemma mutate_other (l l' : loc) (m : mutation) (h : store) :
  l ≠ l' → mutate l m h !! l' = h !! l'.
Proof. intros Hne. destruct m; simpl; by rewrite lookup_alter_ne. Qed.

Lemma mutate_all_other (l l' : loc) (ms : list mutation) (h : store) :
  l ≠ l' → mutate_all l ms h !! l' = h !! l'.
Proof.
  intros Hne. revert h. unfold mutate_all.
  induction ms as [|m ms IH]; intros h; simpl; [done|].
  rewrite IH. by apply mutate_other.
Qed.

(** ** The plugin *)

Lemma handed_out_registry (st : Plugin.t * store) : handed_out st = registry st.
Proof.
  destruct st as [self h]. unfold handed_out, registry, Plugin.get_commands.
  simpl. apply contents_alloc.
Qed.

Lemma registry_new (h : store) : registry (Plugin.__init__ h) = ∅.
Proof. unfold registry, Plugin.__init__. simpl. apply contents_alloc. Qed.

Lemma registry_initialize (st : Plugin.t * store) :
  registry (step Initialize st) = both_commands.
Proof.
  destruct st as [self h]. unfold registry, step, Plugin.initialize. simpl.
  apply contents_alloc.
Qed.

Lemma step_get_info (st : Plugin.t * store) : step GetInfo st = st.
Proof. by destruct st. Qed.

Lemma registry_get_commands (st : Plugin.t * store) :
  registry (step GetCommands st) = registry st.
Proof.
  destruct st as [self h]. destruct self as [l].
  unfold registry, step, Plugin.get_commands.
  change (contents (snd (alloc (contents h l) h)) l = contents h l).
  rewrite contents_alloc_other. by case_decide.
Qed.

Lemma run_app (cs1 cs2 : list call) (st : Plugin.t * store) :
  run (cs1 ++ cs2) st = run cs2 (run cs1 st).
Proof. apply foldl_app. Qed.

(** Calls other than [initialize] leave the registry as it is. *)
Lemma registry_run_without_initialize (cs : list call) (st : Plugin.t * store) :
  Initialize ∉ cs → registry (run cs st) = registry st.
Proof.
  revert st. induction cs as [|c cs IH]; intros st Hcs; [done|].
  apply not_elem_of_cons in Hcs as [Hc Hcs]. simpl.
  rewrite IH by done. destruct c; [done | | ].
  - by rewrite step_get_info.
  - apply registry_get_commands.
Qed.

(** Once [initialize] has run, the registry holds the two commands. *)
Lemma registry_run_initialized (cs : list call) (st : Plugin.t * store) :
  registry st = both_commands → registry (run cs st) = both_commands.
Proof.
  revert st. induction cs as [|c cs IH]; intros st Hst; [done|].
  simpl. apply IH. destruct c.
  - apply registry_initialize.
  - by rewrite step_get_info.
  - by rewrite registry_get_commands.
Qed.

Lemma registry_run_with_initialize (cs : list call) (st : Plugin.t * store) :
  Initialize ∈ cs → registry (run cs st) = both_commands.
Proof.
  intros (cs1 & cs2 & ->)%list_elem_of_split.
  rewrite run_app. change (run (Initialize :: cs2) ?s)
    with (run cs2 (step Initialize s)).
  apply registry_run_initialized, registry_initialize.
Qed.

Lemma dom_both_commands : dom both_commands = ({[ "greet"; "count" ]} : gset string).
Proof.
  unfold both_commands. rewrite dom_insert_L, dom_singleton_L. set_solver.
Qed.

(** C6: a new plugin hands out an empty mapping until [initialize] is
    called; from then on the mapping it hands out has exactly the keys
    "greet" and "count", bound to a greet command and a count command. *)
Theorem get_commands_before_and_after_initialize (h0 : store) (cs : list call) :
  let st := run cs (Plugin.__init__ h0) in
  (Initialize ∉ cs → handed_out st = ∅) ∧
  (Initialize ∈ cs →
   dom (handed_out st) = {[ "greet"; "count" ]} ∧
   handed_out st !! "greet" = Some GreetCommand.__init__ ∧
   handed_out st !! "count" = Some CountCommand.__init__ ∧
   class_of GreetCommand.__init__ = GreetCommandClass ∧
   class_of CountCommand.__init__ = CountCommandClass).
Proof.
  intros st. subst st. rewrite handed_out_registry. split.
  - intros Hcs. rewrite registry_run_without_initialize by done.
    apply registry_new.
  - intros Hcs. rewrite registry_run_with_initialize by done.
    split; [apply dom_both_commands | done].
Qed.

(** [get_commands()] right after construction, and after [initialize()]. *)
Lemma get_commands_new_then_initialized :
  handed_out (Plugin.__init__ ∅) = ∅ ∧
  dom (handed_out (run [Initialize] (Plugin.__init__ ∅))) = {[ "greet"; "count" ]} ∧
  handed_out (run [Initialize] (Plugin.__init__ ∅)) !! "greet"
  = Some GreetCommand.__init__ ∧
  handed_out (run [Initialize] (Plugin.__init__ ∅)) !! "count"
  = Some CountCommand.__init__.
Proof.
  split.
  - exact (proj1 (get_commands_before_and_after_initialize ∅ [])
             (not_elem_of_nil Initialize)).
  - pose proof (proj2 (get_commands_before_and_after_initialize ∅ [Initialize])
                  (list_elem_of_here Initialize [])) as (Hd & Hg & Hc & _).
    exact (conj Hd (conj Hg Hc)).
Defined.

(** C7: the mapping [get_commands] returns is a new dictionary with the
    registry's entries; whatever the caller then does to it (setting,
    deleting, clearing), the registry keeps its entries and the next
    [get_commands] hands out the same entries as before. *)
Theorem get_commands_returns_a_copy
    (self : Plugin.t) (h : store) (ms : list mutation) :
  well_formed (self, h) →
  let r := Plugin.get_commands self h in
  let returned := fst r in
  let h' := mutate_all returned ms (snd (snd r)) in
  returned ≠ Plugin._commands self ∧
  contents (snd (snd r)) returned = registry (self, h) ∧
  fst (snd r) = self ∧
  registry (self, h') = registry (self, h) ∧
  handed_out (self, h') = handed_out (self, h).
Proof.
  intros Hwf r returned h'. destruct self as [l].
  unfold well_formed in Hwf. simpl in Hwf.
  assert (returned ≠ l) as Hne.
  { intros Heq. pose proof (alloc_unused (contents h l) h) as Hf.
    change (fst (alloc (contents h l) h)) with returned in Hf.
    rewrite Heq in Hf. destruct Hwf. congruence. }
  assert (registry ({| Plugin._commands := l |}, h')
          = registry ({| Plugin._commands := l |}, h)) as Hreg.
  { unfold registry, contents. simpl. subst h'.
    rewrite mutate_all_other by done.
    change (snd (snd r)) with (snd (alloc (contents h l) h)).
    by rewrite alloc_keeps. }
  split; [done|]. split; [apply contents_alloc|]. split; [done|].
  split; [done|]. by rewrite !handed_out_registry.
Qed.

(** An initialized plugin whose caller adds an entry under a new name,
    replaces "count", deletes "greet" and then clears the mapping it got. *)
Lemma get_commands_copy_sample :
  let st := run [Initialize] (Plugin.__init__ ∅) in
  let r := Plugin.get_commands (fst st) (snd st) in
  let ms := [SetItem "extra" GreetCommand.__init__;
             SetItem "count" GreetCommand.__init__; DelItem "greet"; Clear] in
  let h' := mutate_all (fst r) ms (snd (snd r)) in
  contents h' (fst r) = ∅ ∧
  registry (fst st, h') = both_commands ∧
  handed_out (fst st, h') = both_commands.
Proof.
  cbv zeta.
  assert (well_formed (fst (run [Initialize] (Plugin.__init__ ∅)),
                       snd (run [Initialize] (Plugin.__init__ ∅))))
    as Hwf by (exists both_commands; reflexivity).
  pose proof (get_commands_returns_a_copy
    (fst (run [Initialize] (Plugin.__init__ ∅)))
    (snd (run [Initialize] (Plugin.__init__ ∅)))
    [SetItem "extra" GreetCommand.__init__;
     SetItem "count" GreetCommand.__init__; DelItem "greet"; Clear]
    Hwf) as H.
  cbv zeta in H. destruct H as (_ & _ & _ & Hreg & Hout).
  split; [reflexivity|]. split.
  - etransitivity; [exact Hreg | reflexivity].
  - etransitivity; [exact Hout | reflexivity].
Defined.

(** Every state a plugin can reach is well formed, so the copy property
    above holds in each of them. *)
Lemma step_well_formed (c : call) (st : Plugin.t * store) :
  well_formed st → well_formed (step c st).
Proof.
  destruct st as [[l] h]. unfold well_formed. simpl. intros Hwf. destruct c.
  - unfold Plugin.initialize, alloc. simpl. rewrite lookup_insert_eq. eauto.
  - done.
  - change (is_Some (snd (alloc (contents h l) h) !! l)).
    by rewrite alloc_keeps.
Qed.

Lemma run_well_formed (h0 : store) (cs : list call) :
  well_formed (run cs (Plugin.__init__ h0)).
Proof.
  assert (well_formed (Plugin.__init__ h0)) as Hinit.
  { unfold well_formed, Plugin.__init__, alloc. simpl.
    rewrite lookup_insert_eq. eauto. }
  revert Hinit. generalize (Plugin.__init__ h0).
  induction cs as [|c cs IH]; intros st Hst; [done|].
  simpl. by apply IH, step_well_formed.
Qed.

(** C8: [get_info] returns the same descriptor in every state, initialized
    or not, and leaves the state as it is. *)
Theorem get_info_is_static (self : Plugin.t) (h : store) :
  let r := Plugin.get_info self h in
  name (fst r) = "example-plugin" ∧
  version (fst r) = "1.0.0" ∧
  author (fst r) = "VoltMind Team" ∧
  commands (fst r) = ["greet"; "count"] ∧
  entry_point (fst r) = "plugin.Plugin" ∧
  snd r = (self, h) ∧
  (∀ self' h', fst (Plugin.get_info self' h') = fst r) ∧
  (∀ cs, run (GetInfo :: cs) (self, h) = run cs (self, h)).
Proof. by repeat split. Qed.

(** A new plugin registers no name while its descriptor declares two. *)
Lemma new_plugin_registers_nothing :
  registered (Plugin.__init__ ∅) = ∅ ∧
  declared (Plugin.__init__ ∅) = {[ "greet"; "count" ]} ∧
  bool_decide (registered (Plugin.__init__ ∅) = declared (Plugin.__init__ ∅))
  = false.
Proof. split; [|split]; by vm_compute. Qed.

(** C9, as the code has it: in every state reached by calls among which
    there is an [initialize], the registered names are the declared ones. *)
Theorem registered_names_match_descriptor
    (h0 : store) (cs1 cs2 : list call) :
  let st := run (cs1 ++ Initialize :: cs2) (Plugin.__init__ h0) in
  registered st = declared st ∧ registered st = {[ "greet"; "count" ]}.
Proof.
  intros st. unfold registered. subst st.
  rewrite registry_run_with_initialize by (apply elem_of_app; right; left).
  rewrite dom_both_commands. split; [|done].
  unfold declared. simpl. set_solver.
Qed.

(** * Further properties of the commands *)

(** ** Decimal numerals are read back by [int()] *)

Lemma digit_value_char (d : N) :
  (d < 10)%N → Builtins.digit_value (pretty_N_char d) = Some (Z.of_N d).
Proof.
  intros Hd.
  assert (d = 0 ∨ d = 1 ∨ d = 2 ∨ d = 3 ∨ d = 4 ∨ d = 5 ∨ d = 6 ∨ d = 7
          ∨ d = 8 ∨ d = 9)%N as Hcases by lia.
  repeat (destruct Hcases as [->|Hcases]; [reflexivity|]).
  by subst d.
Qed.

(** Reading the digits [pretty_N_go] puts in front of [s] multiplies the
    value read so far by a power of ten and adds the number. *)
Lemma scan_digits_pretty_N_go (x : N) :
  (0 < x)%N →
  ∃ p, ∀ s seen acc,
    Builtins.scan_digits (pretty_N_go x s) false seen acc
    = Builtins.scan_digits s false true (acc * p + Z.of_N x).
Proof.
  induction (N.lt_wf_0 x) as [x _ IH]. intros Hx.
  assert (x `mod` 10 < 10)%N as Hd by (apply N.mod_lt; lia).
  assert (x `div` 10 < x)%N as Hlt by (apply N.div_lt; lia).
  pose proof (N.div_mod x 10 ltac:(lia)) as Hdm.
  assert (∀ s seen acc,
    Builtins.scan_digits (pretty_N_go x s) false seen acc
    = Builtins.scan_digits
        (pretty_N_go (x `div` 10) (String (pretty_N_char (x `mod` 10)) s))
        false seen acc) as Hstep
    by (intros; by rewrite (pretty_N_go_step x)).
  revert Hd Hlt Hdm Hstep IH.
  generalize (x `div` 10)%N (x `mod` 10)%N. intros q r Hd Hlt Hdm Hstep IH.
  destruct (decide (q = 0)%N) as [Hz|Hnz].
  - exists 10. intros s seen acc. rewrite Hstep.
    rewrite Hz, pretty_N_go_0. simpl. rewrite digit_value_char by done.
    by replace (acc * 10 + Z.of_N x) with (10 * acc + Z.of_N r) by lia.
  - destruct (IH q) as [p Hp]; [done | lia |].
    exists (10 * p). intros s seen acc. rewrite Hstep.
    rewrite Hp. simpl. rewrite digit_value_char by done.
    by replace (acc * (10 * p) + Z.of_N x)
      with (10 * (acc * p + Z.of_N q) + Z.of_N r) by lia.
Qed.

Lemma pretty_N_go_head (x : N) (s : string) :
  (0 < x)%N →
  ∃ d rest, (d < 10)%N ∧ pretty_N_go x s = String (pretty_N_char d) rest.
Proof.
  revert s. induction (N.lt_wf_0 x) as [x _ IH]. intros s Hx.
  rewrite pretty_N_go_step by done.
  destruct (decide (x `div` 10 = 0)%N) as [Hz|Hnz].
  - rewrite Hz, pretty_N_go_0. eexists _, _. split; [|done].
    apply N.mod_lt. lia.
  - apply IH; [apply N.div_lt; lia | by apply N.neq_0_lt_0].
Qed.

(** The digits [pretty_N_go] puts in front of [s] are as many as the
    number has, and are counted. *)
Lemma digits_run_pretty_N_go (x : N) :
  (0 < x)%N →
  ∃ k, (10 ^ k ≤ 10 * x)%N ∧
    ∀ s, Builtins.digits_run (pretty_N_go x s)
         = (k + Builtins.digits_run s)%N.
Proof.
  induction (N.lt_wf_0 x) as [x _ IH]. intros Hx.
  assert (x `mod` 10 < 10)%N as Hd by (apply N.mod_lt; lia).
  assert (x `div` 10 < x)%N as Hlt by (apply N.div_lt; lia).
  pose proof (N.div_mod x 10 ltac:(lia)) as Hdm.
  assert (∀ s, Builtins.digits_run (pretty_N_go x s)
    = Builtins.digits_run
        (pretty_N_go (x `div` 10) (String (pretty_N_char (x `mod` 10)) s)))
    as Hstep by (intros; by rewrite (pretty_N_go_step x)).
  revert Hd Hlt Hdm Hstep IH.
  generalize (x `div` 10)%N (x `mod` 10)%N. intros q r Hd Hlt Hdm Hstep IH.
  destruct (decide (q = 0)%N) as [Hz|Hnz].
  - exists 1%N. split; [rewrite N.pow_1_r; lia|]. intros s. rewrite Hstep.
    rewrite Hz, pretty_N_go_0. simpl. rewrite digit_value_char by done. lia.
  - destruct (IH q) as (k & Hk & Hrun); [done | lia |].
    exists (N.succ k). split.
    + rewrite N.pow_succ_r'. lia.
    + intros s. rewrite Hstep, Hrun. simpl.
      rewrite digit_value_char by done. lia.
Qed.

(** A number below [10 ^ 4300] has at most 4300 digits. *)
Lemma digits_run_pretty_N_go_cap (x : N) (s : string) :
  (0 < x)%N → (x < 10 ^ 4300)%N → Builtins.digits_run s = 0%N →
  (Builtins.max_str_digits <? Builtins.digits_run (pretty_N_go x s))%N = false.
Proof.
  intros Hx Hcap Hs. destruct (digits_run_pretty_N_go x Hx) as (k & Hk & ->).
  rewrite Hs, N.add_0_r. apply N.ltb_ge. unfold Builtins.max_str_digits.
  destruct (N.le_gt_cases k 4300) as [|Hgt]; [done|]. exfalso.
  assert (10 ^ N.succ 4300 ≤ 10 ^ k)%N as Hpow
    by (apply N.pow_le_mono_r; [done | by apply N.le_succ_l]).
  rewrite N.pow_succ_r' in Hpow. revert Hcap Hk Hpow.
  generalize (10 ^ 4300)%N (10 ^ k)%N. lia.
Qed.

Lemma int_of_str_digit_first (d : N) (rest : string) :
  (d < 10)%N →
  Builtins.int_of_str (String (pretty_N_char d) rest)
  = match Builtins.scan_digits (String (pretty_N_char d) rest) false false 0 with
    | Some (n, r) =>
        if (Builtins.max_str_digits
            <? Builtins.digits_run (String (pretty_N_char d) rest))%N
        then None
        else
          match Builtins.skip_space r with
          | EmptyString => Some n
          | _ => None
          end
    | None => None
    end.
Proof.
  intros Hd.
  assert (d = 0 ∨ d = 1 ∨ d = 2 ∨ d = 3 ∨ d = 4 ∨ d = 5 ∨ d = 6 ∨ d = 7
          ∨ d = 8 ∨ d = 9)%N as Hcases by lia.
  repeat (destruct Hcases as [->|Hcases]; [reflexivity|]).
  by subst d.
Qed.

Lemma int_of_str_minus_digit (d : N) (rest : string) :
  (d < 10)%N →
  Builtins.int_of_str (String "-" (String (pretty_N_char d) rest))
  = match Builtins.scan_digits (String (pretty_N_char d) rest) false false 0 with
    | Some (n, r) =>
        if (Builtins.max_str_digits
            <? Builtins.digits_run (String (pretty_N_char d) rest))%N
        then None
        else
          match Builtins.skip_space r with
          | EmptyString => Some (- n)
          | _ => None
          end
    | None => None
    end.
Proof.
  intros Hd.
  assert (d = 0 ∨ d = 1 ∨ d = 2 ∨ d = 3 ∨ d = 4 ∨ d = 5 ∨ d = 6 ∨ d = 7
          ∨ d = 8 ∨ d = 9)%N as Hcases by lia.
  repeat (destruct Hcases as [->|Hcases]; [reflexivity|]).
  by subst d.
Qed.

(** White space around the numeral is skipped.  A text is all white
    space exactly when [skip_space] leaves nothing of it. *)
Lemma skip_space_app (ws s : string) :
  Builtins.skip_space ws = "" →
  Builtins.skip_space (ws +:+ s) = Builtins.skip_space s.
Proof.
  induction ws as [|c ws IH]; simpl; [done|].
  destruct (Builtins.is_space c); [done | discriminate].
Qed.

Lemma int_of_str_leading_space (ws s : string) :
  Builtins.skip_space ws = "" →
  Builtins.int_of_str (ws +:+ s) = Builtins.int_of_str s.
Proof. intros Hws. unfold Builtins.int_of_str. by rewrite skip_space_app. Qed.

Lemma space_is_no_digit (c : ascii) :
  Builtins.is_space c = true →
  Builtins.digit_value c = None ∧ Ascii.eqb c "_" = false.
Proof.
  destruct c as [[] [] [] [] [] [] [] []]; vm_compute; by try discriminate.
Qed.

Lemma digits_run_at_space (ws : string) :
  Builtins.skip_space ws = "" → Builtins.digits_run ws = 0%N.
Proof.
  destruct ws as [|c ws]; [done|]. simpl.
  destruct (Builtins.is_space c) eqn:Hc; [|discriminate]. intros _.
  destruct (space_is_no_digit c Hc) as [-> ->]. done.
Qed.

Lemma scan_digits_at_space (ws : string) (acc : Z) :
  Builtins.skip_space ws = "" →
  Builtins.scan_digits ws false true acc = Some (acc, ws).
Proof.
  destruct ws as [|c ws]; [done|]. simpl.
  destruct (Builtins.is_space c) eqn:Hc; [|discriminate]. intros _.
  destruct (space_is_no_digit c Hc) as [-> ->]. done.
Qed.

Lemma pretty_N_go_app (x : N) (s t : string) :
  pretty_N_go x s +:+ t = pretty_N_go x (s +:+ t).
Proof.
  revert s. induction (N.lt_wf_0 x) as [x _ IH]. intros s.
  destruct (decide (x = 0)%N) as [->|Hx]; [by rewrite !pretty_N_go_0|].
  rewrite (pretty_N_go_step x s), (pretty_N_go_step x (s +:+ t)) by lia.
  rewrite IH by (apply N.div_lt; lia). done.
Qed.

Lemma below_cap_N (x : positive) :
  Z.pos x < 10 ^ 4300 → (N.pos x < 10 ^ 4300)%N.
Proof.
  intros Hx. apply N2Z.inj_lt. rewrite N2Z.inj_pow. exact Hx.
Qed.

Lemma int_of_str_pretty_trailing_space (n : Z) (ws : string) :
  Z.abs n < 10 ^ 4300 →
  Builtins.skip_space ws = "" →
  Builtins.int_of_str (pretty n +:+ ws) = Some n.
Proof.
  intros Hcap Hws. pose proof (digits_run_at_space ws Hws) as Hrun.
  destruct n as [|x|x].
  - change (pretty 0 +:+ ws) with (String (pretty_N_char 0) ws).
    rewrite int_of_str_digit_first by done. simpl.
    by rewrite scan_digits_at_space, Hrun, Hws.
  - change (Z.abs (Z.pos x)) with (Z.pos x) in Hcap.
    change (pretty (Z.pos x)) with (pretty_N_go (N.pos x) "").
    rewrite pretty_N_go_app. change ("" +:+ ws) with ws.
    destruct (pretty_N_go_head (N.pos x) ws eq_refl) as (d & rest & Hd & E).
    destruct (scan_digits_pretty_N_go (N.pos x) eq_refl) as [p Hp].
    rewrite E, int_of_str_digit_first by done. rewrite <- E, Hp.
    rewrite scan_digits_at_space by done.
    rewrite (digits_run_pretty_N_go_cap (N.pos x) ws
               eq_refl (below_cap_N x Hcap) Hrun).
    by rewrite Hws.
  - change (Z.abs (Z.neg x)) with (Z.pos x) in Hcap.
    change (pretty (Z.neg x)) with (String "-" (pretty_N_go (N.pos x) "")).
    change (String "-" (pretty_N_go (N.pos x) "") +:+ ws)
      with (String "-" (pretty_N_go (N.pos x) "" +:+ ws)).
    rewrite pretty_N_go_app. change ("" +:+ ws) with ws.
    destruct (pretty_N_go_head (N.pos x) ws eq_refl) as (d & rest & Hd & E).
    destruct (scan_digits_pretty_N_go (N.pos x) eq_refl) as [p Hp].
    rewrite E, int_of_str_minus_digit by done. rewrite <- E, Hp.
    rewrite scan_digits_at_space by done.
    rewrite (digits_run_pretty_N_go_cap (N.pos x) ws
               eq_refl (below_cap_N x Hcap) Hrun).
    by rewrite Hws.
Qed.

(** ** The count command, further *)

(** X1: the count command looks at its keyword bag only through what
    [int()] makes of the [max] argument (5 when absent): two bags whose
    arguments coerce alike give the same result and the same output. *)
Theorem count_depends_on_coercion (kw1 kw2 : kwargs) (out : Console) :
  Builtins.int (kwargs_get kw1 "max" (VInt 5))
  = Builtins.int (kwargs_get kw2 "max" (VInt 5)) →
  CountCommand.execute kw1 out = CountCommand.execute kw2 out.
Proof.
  intros Heq.
  destruct (Builtins.int (kwargs_get kw2 "max" (VInt 5))) as [n|e] eqn:Hint.
  - by rewrite (execute_coerced kw1 out n Heq), (execute_coerced kw2 out n Hint).
  - assert (e = ValueError ∨ e ≠ ValueError) as [->|Hne]
      by (destruct e; (by left) || (by right)).
    + by rewrite (execute_ValueError kw1 out Heq), (execute_ValueError kw2 out Hint).
    + by rewrite (execute_propagates kw1 out e Hne Heq),
        (execute_propagates kw2 out e Hne Hint).
Qed.

(** A padded, signed numeral beside an unrelated keyword, the boolean
    [True] against 1, and no argument against 5. *)
Lemma count_depends_on_coercion_samples :
  CountCommand.execute {[ "max" := VStr " +7 "; "verbose" := VBool true ]} []
  = CountCommand.execute {[ "max" := VInt 7 ]} [] ∧
  CountCommand.execute {[ "max" := VBool true ]} []
  = CountCommand.execute {[ "max" := VInt 1 ]} [] ∧
  CountCommand.execute ∅ [] = CountCommand.execute {[ "max" := VInt 5 ]} [].
Proof.
  split; [|split].
  - exact (count_depends_on_coercion
             {[ "max" := VStr " +7 "; "verbose" := VBool true ]}
             {[ "max" := VInt 7 ]} [] eq_refl).
  - exact (count_depends_on_coercion
             {[ "max" := VBool true ]} {[ "max" := VInt 1 ]} [] eq_refl).
  - assert (Builtins.int (kwargs_get (∅ : kwargs) "max" (VInt 5))
            = Builtins.int (kwargs_get {[ "max" := VInt 5 ]} "max" (VInt 5)))
      as Heq by (by vm_compute).
    exact (count_depends_on_coercion ∅ {[ "max" := VInt 5 ]} [] Heq).
Defined.

(** X2: a bound given as text, the decimal numeral of an integer of at
    most 4300 digits with any white space before and after it (a text is
    all white space when [skip_space] leaves nothing of it), is treated
    exactly as that integer: same result, same output. *)
Theorem count_accepts_padded_numerals
    (n : Z) (ws1 ws2 : string) (kw : kwargs) (out : Console) :
  Z.abs n < 10 ^ 4300 →
  Builtins.skip_space ws1 = "" → Builtins.skip_space ws2 = "" →
  CountCommand.execute (<[ "max" := VStr (ws1 +:+ pretty n +:+ ws2) ]> kw) out
  = CountCommand.execute (<[ "max" := VInt n ]> kw) out.
Proof.
  intros Hcap Hws1 Hws2.
  rewrite (execute_coerced (<[ "max" := VStr (ws1 +:+ pretty n +:+ ws2) ]> kw)
             out n).
  - symmetry. apply execute_coerced.
    unfold kwargs_get. by rewrite lookup_insert_eq.
  - unfold kwargs_get. rewrite lookup_insert_eq. simpl.
    rewrite int_of_str_leading_space by done.
    by rewrite int_of_str_pretty_trailing_space.
Qed.

(** The text of a line read from a terminal: " 42" and a line feed. *)
Lemma count_accepts_a_typed_line :
  CountCommand.execute (<[ "max" := VStr (" 42" +:+ String "010" "") ]> ∅) []
  = CountCommand.execute (<[ "max" := VInt 42 ]> ∅) [].
Proof.
  assert (Z.abs 42 < 10 ^ 4300) as Hcap by (by apply small_below_cap).
  exact (count_accepts_padded_numerals 42 " " (String "010" "") ∅ []
           Hcap eq_refl eq_refl).
Defined.

(** X3: without a [max] argument the command counts to 5. *)
Theorem count_defaults_to_five (kw : kwargs) (out : Console) :
  kw !! "max" = None →
  CountCommand.execute kw out = (Returned (VInt 5), out ++ counting 5).
Proof.
  intros Hkw. rewrite (execute_coerced kw out 5).
  - by apply count_to_bound.
  - unfold kwargs_get. by rewrite Hkw.
Qed.

(** [count()] called with a keyword it does not know. *)
Lemma count_without_max :
  CountCommand.execute {[ "name" := VStr "Ada" ]} ["earlier output"]
  = (Returned (VInt 5),
     ["earlier output"; "🔢 Counting to 5:"; "  1"; "  2"; "  3"; "  4";
      "  5"; "✅ Finished counting to 5!"]).
Proof.
  exact (count_defaults_to_five {[ "name" := VStr "Ada" ]} ["earlier output"]
           eq_refl).
Defined.

Lemma trunc_below_one (q : Q) : (q < 1)%Q → Builtins.trunc q < 1.
Proof.
  destruct q as [a d]. unfold Qlt, Builtins.trunc. simpl. intros Ha.
  destruct (Z_lt_le_dec a 0) as [Hneg|Hpos].
  - pose proof (Z.quot_pos (- a) (Z.pos d) ltac:(lia) ltac:(lia)) as Hq.
    rewrite Z.quot_opp_l in Hq by lia. lia.
  - rewrite Z.quot_div_nonneg by lia.
    apply Z.div_lt_upper_bound; lia.
Qed.

(** X4: a float below 1 is truncated before it is tested, so every such
    float, the positive fractions included, is refused as not positive:
    the command returns [None] and writes that one message. *)
Theorem count_rejects_floats_below_one (kw : kwargs) (q : Q) (out : Console) :
  kw !! "max" = Some (VFloat (FFinite q)) → (q < 1)%Q →
  CountCommand.execute kw out = (Returned VNone, out ++ [not_positive]).
Proof.
  intros Hkw Hq.
  rewrite (execute_coerced kw out (Builtins.trunc q))
    by (by rewrite (kwargs_get_lookup _ _ _ _ Hkw)).
  by apply count_to_below_one, trunc_below_one.
Qed.

(** [count(max=0.5)] *)
Lemma count_rejects_one_half :
  CountCommand.execute {[ "max" := VFloat (FFinite (1 # 2)) ]} []
  = (Returned VNone, ["[red]Please provide a positive number[/red]"]).
Proof.
  assert (1 # 2 < 1)%Q as Hq by done.
  exact (count_rejects_floats_below_one
           {[ "max" := VFloat (FFinite (1 # 2)) ]} (1 # 2) [] eq_refl Hq).
Defined.

Lemma length_counting (n : Z) : length (counting n) = S (Z.to_nat n + 1).
Proof.
  unfold counting. simpl. by rewrite length_app, length_fmap, length_seqZ.
Qed.

(** Every run of the command ends in one of four ways. *)
Lemma count_cases (kw : kwargs) (out : Console) :
  let r := CountCommand.execute kw out in
  (∃ e, e ≠ ValueError ∧ r = (Raised e, out)) ∨
  (∃ message, r = (Returned VNone, out ++ [message])) ∨
  (∃ n, 1 ≤ n ≤ 100 ∧ r = (Returned (VInt n), out ++ counting n)) ∨
  r = (Returned (VInt 100), out ++ warning :: counting 100).
Proof.
  intros r. subst r.
  destruct (Builtins.int (kwargs_get kw "max" (VInt 5))) as [n|e] eqn:Hint.
  - rewrite (execute_coerced kw out n Hint).
    destruct (Z_lt_le_dec n 1); [|destruct (Z_le_gt_dec n 100)].
    + right. left. eexists. by apply count_to_below_one.
    + right. right. left. exists n. split; [lia | by apply count_to_bound].
    + right. right. right. apply count_to_clamped. lia.
  - assert (e = ValueError ∨ e ≠ ValueError) as [->|Hne]
      by (destruct e; (by left) || (by right)).
    + right. left. eexists. by apply execute_ValueError.
    + left. exists e. split; [done | by apply execute_propagates].
Qed.

(** X5: whatever it is given, the command only adds to the console, and
    never more than 103 lines; when it raises it has written nothing, when
    it returns [None] it has written one line, and when it returns a bound
    [n] (always between 1 and 100) it has written the [n + 2] lines of the
    count, preceded by the warning only when the bound is the cap of 100. *)
Theorem count_output_is_bounded (kw : kwargs) (out : Console) :
  let r := CountCommand.execute kw out in
  out `prefix_of` snd r ∧
  (length (snd r) ≤ length out + 103)%nat ∧
  ((∃ e, r = (Raised e, out)) ∨
   (∃ message, r = (Returned VNone, out ++ [message])) ∨
   (∃ n, 1 ≤ n ≤ 100 ∧ fst r = Returned (VInt n) ∧
      (length (snd r) = length out + Z.to_nat n + 2)%nat) ∨
   (fst r = Returned (VInt 100) ∧
    snd r !! length out = Some warning ∧
    (length (snd r) = length out + 103)%nat)).
Proof.
  intros r. subst r.
  destruct (count_cases kw out)
    as [(e & _ & ->) | [(message & ->) | [(n & Hn & ->) | ->]]];
    cbn [fst snd].
  - split; [done|]. split; [lia|]. left. by exists e.
  - split; [by apply prefix_app_r|]. split; [rewrite length_app; simpl; lia|].
    right. left. by exists message.
  - split; [by apply prefix_app_r|].
    rewrite length_app, length_counting.
    split; [lia|]. right. right. left. exists n.
    split; [done|]. split; [done | lia].
  - split; [by apply prefix_app_r|].
    rewrite length_app.
    change (length (warning :: counting 100)) with (S (length (counting 100))).
    rewrite length_counting.
    change (Z.to_nat 100) with 100%nat.
    split; [lia|]. right. right. right.
    split; [done|]. split; [|lia].
    by apply list_lookup_middle.
Qed.

(** ** The greet command, further *)

(** What the greet command does, whatever its keywords. *)
Lemma greet_cases (float_repr : float → string) (kw : kwargs) (out : Console) :
  let r := GreetCommand.execute float_repr kw out in
  (∃ message,
     r = (Returned (VStr message),
          out ++ ["🤖 [bold blue]" +:+ message +:+ "[/bold blue]";
                  "[dim]This message is brought to you by the Example Plugin![/dim]"])) ∨
  r = (Raised ValueError, out) ∨ r = (Raised MarkupError, out).
Proof.
  intros r. subst r.
  destruct (GreetCommand.message float_repr kw) as [message|e] eqn:Hm.
  - destruct (Markup.renders ("🤖 [bold blue]" +:+ message +:+ "[/bold blue]"))
      eqn:Hr.
    + left. exists message. exact (greet_printed float_repr kw out message Hm Hr).
    + right. right. exact (greet_not_printed float_repr kw out message Hm Hr).
  - right. left. rewrite (greet_message_raised float_repr kw out e Hm).
    revert Hm. unfold GreetCommand.message, Builtins.fstring, Builtins.format.
    repeat case_match; congruence.
Qed.

(** X6: the greet command either returns a greeting, and has then added
    exactly two lines to the console, the greeting it returns between the
    robot mark-up and the plugin's tag line, or raises [ValueError] or
    [MarkupError], and has then written nothing; what was on the console
    stays. *)
Theorem greet_shows_what_it_returns
    (float_repr : float → string) (kw : kwargs) (out : Console) :
  let r := GreetCommand.execute float_repr kw out in
  (∃ message,
     fst r = Returned (VStr message) ∧
     snd r = out ++ ["🤖 [bold blue]" +:+ message +:+ "[/bold blue]";
                     "[dim]This message is brought to you by the Example Plugin![/dim]"]) ∨
  (∃ e, (e = ValueError ∨ e = MarkupError) ∧ r = (Raised e, out)).
Proof.
  intros r. subst r.
  destruct (greet_cases float_repr kw out) as [[message ->] | [-> | ->]].
  - left. by exists message.
  - right. exists ValueError. auto.
  - right. exists MarkupError. auto.
Qed.

(** X7: the greet command reads the keywords [name] and [style] and no
    other: bags that agree on these two give the same greeting and the
    same output. *)
Theorem greet_ignores_other_keywords
    (float_repr : float → string) (kw1 kw2 : kwargs) (out : Console) :
  kw1 !! "name" = kw2 !! "name" → kw1 !! "style" = kw2 !! "style" →
  GreetCommand.execute float_repr kw1 out
  = GreetCommand.execute float_repr kw2 out.
Proof.
  intros Hname Hstyle. unfold GreetCommand.execute.
  unfold GreetCommand.message, kwargs_get. by rewrite Hname, Hstyle.
Qed.

(** A call with a [max] keyword, which only the count command knows. *)
Lemma greet_with_unknown_keyword :
  GreetCommand.execute (λ _, "nan") {[ "name" := VStr "Ada"; "max" := VInt 3 ]} []
  = GreetCommand.execute (λ _, "nan") {[ "name" := VStr "Ada" ]} [].
Proof.
  exact (greet_ignores_other_keywords (λ _, "nan")
           {[ "name" := VStr "Ada"; "max" := VInt 3 ]}
           {[ "name" := VStr "Ada" ]} [] eq_refl eq_refl).
Defined.

(** ** The plugin, further *)

Lemma registry_run_cases (cs : list call) (st : Plugin.t * store) :
  registry st = ∅ ∨ registry st = both_commands →
  registry (run cs st) = ∅ ∨ registry (run cs st) = both_commands.
Proof.
  revert st. induction cs as [|c cs IH]; intros st Hst; [done|].
  simpl. apply IH. destruct c.
  - right. apply registry_initialize.
  - by rewrite step_get_info.
  - by rewrite registry_get_commands.
Qed.

(** X8: in every state a plugin can reach, each command that
    [get_commands] hands out sits under the name its own [get_name]
    reports, and is of the class that goes with that name. *)
Theorem commands_sit_under_their_names
    (h0 : store) (cs : list call) (key : string) (c : ICommand) :
  handed_out (run cs (Plugin.__init__ h0)) !! key = Some c →
  BaseCommand.get_name c = key ∧
  (key = "greet" ∧ class_of c = GreetCommandClass ∨
   key = "count" ∧ class_of c = CountCommandClass).
Proof.
  rewrite handed_out_registry.
  destruct (registry_run_cases cs (Plugin.__init__ h0)) as [-> | ->].
  - left. apply registry_new.
  - by rewrite lookup_empty.
  - unfold both_commands. rewrite lookup_insert_Some, lookup_singleton_Some.
    intros [[<- <-] | [_ [<- <-]]]; split; auto.
Qed.

(** The command handed out under "count" after [initialize()]. *)
Lemma count_sits_under_count :
  handed_out (run [Initialize] (Plugin.__init__ ∅)) !! "count"
  = Some CountCommand.__init__ ∧
  BaseCommand.get_name CountCommand.__init__ = "count" ∧
  class_of CountCommand.__init__ = CountCommandClass.
Proof.
  assert (handed_out (run [Initialize] (Plugin.__init__ ∅)) !! "count"
          = Some CountCommand.__init__) as Hc by reflexivity.
  split; [exact Hc|].
  destruct (commands_sit_under_their_names ∅ [Initialize] "count"
              CountCommand.__init__ Hc) as [Hname [[Hkey _] | [_ Hclass]]].
  - discriminate Hkey.
  - exact (conj Hname Hclass).
Defined.

Lemma step_keeps_dictionaries (c : call) (st : Plugin.t * store)
    (l : loc) (d : dict) :
  snd st !! l = Some d → snd (step c st) !! l = Some d.
Proof.
  destruct st as [self h]. simpl. intros Hl. destruct c; [| done |].
  - change (snd (alloc both_commands h) !! l = Some d).
    rewrite alloc_keeps; eauto.
  - change (snd (alloc (contents h (Plugin._commands self)) h) !! l = Some d).
    rewrite alloc_keeps; eauto.
Qed.

(** X9: the plugin never changes a dictionary that exists: [initialize]
    binds a new one and [get_commands] makes a new one, so every
    dictionary of the store, a mapping handed out earlier as much as the
    one the constructor made, is the same after any further calls. *)
Theorem plugin_calls_keep_dictionaries
    (cs : list call) (st : Plugin.t * store) (l : loc) (d : dict) :
  snd st !! l = Some d → snd (run cs st) !! l = Some d.
Proof.
  revert st. induction cs as [|c cs IH]; intros st Hl; [done|].
  simpl. by apply IH, step_keeps_dictionaries.
Qed.

(** The dictionary the constructor made is still empty after
    [initialize()] and [get_commands()]. *)
Lemma constructor_dictionary_stays_empty :
  snd (Plugin.__init__ ∅) !! Plugin._commands (fst (Plugin.__init__ ∅))
  = Some ∅ ∧
  snd (run [Initialize; GetCommands] (Plugin.__init__ ∅))
    !! Plugin._commands (fst (Plugin.__init__ ∅))
  = Some ∅.
Proof.
  assert (snd (Plugin.__init__ ∅) !! Plugin._commands (fst (Plugin.__init__ ∅))
          = Some (∅ : dict)) as H0 by reflexivity.
  split; [exact H0|].
  exact (plugin_calls_keep_dictionaries [Initialize; GetCommands]
           (Plugin.__init__ ∅) _ ∅ H0).
Defined.

(** X10: two calls of [get_commands] return two different dictionaries,
    neither of them one that existed before nor the registry, and what a
    caller does to the first leaves the second with the registry's
    entries. *)
Theorem get_commands_copies_are_independent
    (h0 : store) (cs : list call) (ms : list mutation) :
  let st := run cs (Plugin.__init__ h0) in
  let r1 := Plugin.get_commands (fst st) (snd st) in
  let r2 := Plugin.get_commands (fst (snd r1)) (snd (snd r1)) in
  snd st !! fst r1 = None ∧
  snd (snd r1) !! fst r2 = None ∧
  fst r1 ≠ fst r2 ∧
  fst r2 ≠ Plugin._commands (fst st) ∧
  contents (mutate_all (fst r1) ms (snd (snd r2))) (fst r2) = registry st.
Proof.
  intros st r1 r2.
  pose proof (run_well_formed h0 cs) as Hwf. fold st in Hwf.
  destruct st as [[l] h]. unfold well_formed in Hwf. simpl in Hwf.
  set (d := contents h l).
  assert (r1 = (fst (alloc d h), ({| Plugin._commands := l |}, snd (alloc d h))))
    as Hr1 by done.
  set (l1 := fst (alloc d h)) in *. set (h1 := snd (alloc d h)) in *.
  assert (h1 !! l = h !! l) as Hl by (by apply alloc_keeps).
  assert (contents h1 l = d) as Hd by (unfold contents; by rewrite Hl).
  assert (r2 = (fst (alloc d h1), ({| Plugin._commands := l |}, snd (alloc d h1))))
    as Hr2 by (subst r2; rewrite Hr1; unfold Plugin.get_commands; simpl;
               by rewrite Hd).
  rewrite Hr1, Hr2. simpl.
  assert (h !! l1 = None) as Hf1 by apply alloc_unused.
  assert (h1 !! fst (alloc d h1) = None) as Hf2 by apply alloc_unused.
  assert (h1 !! l1 = Some d) as Hl1 by apply lookup_insert_eq.
  assert (l1 ≠ fst (alloc d h1)) as Hne by congruence.
  assert (fst (alloc d h1) ≠ l) as Hne2.
  { intros Heq. rewrite Heq, Hl in Hf2. destruct Hwf. congruence. }
  split; [done|]. split; [done|]. split; [done|]. split; [done|].
  unfold contents at 1. rewrite mutate_all_other by done.
  unfold alloc. simpl. by rewrite lookup_insert_eq.
Qed.
